(** * Rejection-method Monte Carlo integration: the notebook's estimator

    A shallow embedding of the estimator of
    [20170414_CalculatingAnIntegralWithMonteCarloUsingTheRejectionMethod.ipynb]
    (functions [MCHist] and [MCHist2], and the cell code that divides their
    result by the number of histories), with the properties the
    specification states about it.

    Numbers.  The notebook computes in binary64.  The estimator is embedded
    twice.  First over exact rationals ([Q], compared with [==]): this is
    the setting of everything that concerns what a run does, which trials it
    runs, what it reads from the generator, when a trial is a hit, when an
    exception is raised.  Then over an arbitrary arithmetic ([Machine]),
    instantiated with binary64 ([Binary64]): this is the setting of
    everything that concerns the number a run adds up, which rounding
    changes.  The sample count is an integer ([Z]): the jitted function
    iterates [range(1, n_hist)].

    Randomness.  Python's global generator is a state that every call of
    [random.random()] advances.  It is modelled as a stream of deviates
    together with a cursor; reading a deviate moves the cursor by one.

    Integrand.  [MCHist] and [MCHist2] differ only in the expression
    assigned to [f_x] (exp(x^2), and exp(x)/x + exp(1/x)); neither is a
    rational function, so the expression is a parameter [integrand]. *)

From Stdlib Require Import ZArith QArith Qminmax Qround List Lia Lqa Bool.
From Stdlib Require Import Floats Uint63.
Import ListNotations.

Set Warnings "-inexact-float".

Local Open Scope Q_scope.

(** ** Outcomes of a Python computation *)

(** [ZeroDivisionError] is the only exception the notebook's own code can
    raise (the division in the publishing cell).  The other three are the
    conditions of the specification's error taxonomy; they are listed so
    that statements about them can be written, and no definition below
    raises them, as no line of the source does. *)
Inductive exn : Type :=
| ZeroDivisionError
| InvalidInterval
| InvalidEnvelope
| InvalidSampleCount.

Inductive outcome (A : Type) : Type :=
| Returned (a : A)
| Raised (e : exn).

Arguments Returned {A} a.
Arguments Raised {A} e.

(** ** The random source *)

Definition stream := nat -> Q.

Record rng : Type := mkRng { deviates : stream; cursor : nat }.

(** [random.random()] yields a float in the half-open interval [0, 1). *)
Definition admissible (u : stream) : Prop := forall i, 0 <= u i /\ u i < 1.

(** ** A state-and-exception monad over the generator *)

(** A computation reads and advances the generator and either returns or
    raises.  Nothing inside [MCHist] raises; the exception layer is there so
    that "the call returns normally" is a statement about the code. *)

Definition M (A : Type) : Type := rng -> outcome (A * rng).

Definition ret {A} (a : A) : M A := fun g => Returned (a, g).

Definition bind {A B} (m : M A) (k : A -> M B) : M B :=
  fun g => match m g with
           | Returned (a, g') => k a g'
           | Raised e => Raised e
           end.

Declare Scope py_scope.
Delimit Scope py_scope with py.
Notation "x <- m ;; k" := (bind m (fun x => k))
  (at level 61, m at next level, right associativity) : py_scope.
Local Open Scope py_scope.

(** [random.random()] *)
Definition random : M Q :=
  fun g => Returned (deviates g (cursor g), mkRng (deviates g) (S (cursor g))).

(** [random.uniform(a, b)] is [a + (b - a) * random()]. *)
Definition uniform (a b : Q) : M Q :=
  u <- random ;; ret (a + (b - a) * u).

(** ** Control structure *)

(** [range(lo, hi)] *)
Definition range (lo hi : Z) : list Z :=
  map (fun i => (lo + Z.of_nat i)%Z) (seq 0 (Z.to_nat (hi - lo))).

(** [for x in xs: s = body(x, s)] *)
Fixpoint for_each {A S : Type} (xs : list A) (body : A -> S -> M S) (s : S) : M S :=
  match xs with
  | [] => ret s
  | x :: xs' => s' <- body x s ;; for_each xs' body s'
  end.

(** [f < f_x] on floats *)
Definition Qlt_bool (x y : Q) : bool :=
  (Qnum x * QDen y <? Qnum y * QDen x)%Z.

(** [x / y] on floats: Python raises on a zero divisor. *)
Definition py_div (x y : Q) : outcome Q :=
  if Qeq_bool y 0 then Raised ZeroDivisionError else Returned (x / y).


(** ** The estimator *)

Section Estimator.

(** The expression assigned to [f_x] in the loop body. *)
Variable integrand : Q -> Q.

(** One iteration of the loop of [MCHist]. *)
Definition trial (a b fmax score : Q) (n : Z) (tot_score : Q) : M Q :=
  x <- uniform a b ;;
  f <- uniform 0 fmax ;;
  let f_x := integrand x in
  if Qlt_bool f f_x then ret (tot_score + score) else ret tot_score.

Definition MCHist (n_hist : Z) (a b fmax : Q) : M Q :=
  let score := (b - a) * fmax in
  let tot_score := 0 in
  for_each (range 1 n_hist) (trial a b fmax score) tot_score.

(** The publishing cell: [results = MCHist(num_hist, a, b, fmax)] followed
    by [results / num_hist].  The cell then rounds the quotient to six
    decimals for printing; the estimate is the quotient itself. *)
Definition estimate (num_hist : Z) (a b fmax : Q) (g : rng) : outcome Q :=
  match MCHist num_hist a b fmax g with
  | Returned (results, _) => py_div results (inject_Z num_hist)
  | Raised e => Raised e
  end.

(** *** What a run draws *)

(** The pairs (x, y) drawn by [k] consecutive trials that start reading
    the stream [u] at position [c]. *)
Fixpoint draws (a b fmax : Q) (u : stream) (c k : nat) : list (Q * Q) :=
  match k with
  | O => []
  | S k' => (a + (b - a) * u c, 0 + (fmax - 0) * u (S c))
              :: draws a b fmax u (S (S c)) k'
  end.

Definition is_hit (p : Q * Q) : bool := Qlt_bool (snd p) (integrand (fst p)).

(** Number of trials a call with sample count [n_hist] performs. *)
Definition trials (n_hist : Z) : nat := length (range 1 n_hist).

(** The draws of a whole call started in generator state [g]. *)
Definition run_draws (n_hist : Z) (a b fmax : Q) (g : rng) : list (Q * Q) :=
  draws a b fmax (deviates g) (cursor g) (trials n_hist).

Definition hits (n_hist : Z) (a b fmax : Q) (g : rng) : nat :=
  length (filter is_hit (run_draws n_hist a b fmax g)).

(** The accumulator after the trials with draws [ds], started at [tot]. *)
Definition tally (score tot : Q) (ds : list (Q * Q)) : Q :=
  fold_left (fun t p => if is_hit p then t + score else t) ds tot.

End Estimator.

(** ** Sample generators *)

Definition const_stream (q : Q) : stream := fun _ => q.
Definition half_stream : stream := const_stream (1 # 2).
Definition g0 : rng := mkRng half_stream 0.

(** Deviates that alternate between [p] (even positions) and [q]. *)
Definition alt_stream (p q : Q) : stream := fun i => if Nat.even i then p else q.

(** ** The second estimator *)

(** An outcome computed outside the generator, used inside the monad. *)
Definition lift {A} (r : outcome A) : M A :=
  fun g => match r with
           | Returned a => Returned (a, g)
           | Raised e => Raised e
           end.

Section SecondEstimator.

(** [np.exp]: not a rational function, hence a parameter. *)
Variable exp : Q -> Q.

(** [(np.exp(x)/x) + np.exp(1/x)], the expression [MCHist2] assigns to
    [f_x].  Both divisions are by the drawn x and raise when it is zero. *)
Definition f_x2 (x : Q) : outcome Q :=
  match py_div (exp x) x with
  | Returned p =>
      match py_div 1 x with
      | Returned i => Returned (p + exp i)
      | Raised e => Raised e
      end
  | Raised e => Raised e
  end.

(** The same expression where no division can fail. *)
Definition integrand2 (x : Q) : Q := exp x / x + exp (1 / x).

(** One iteration of the loop of [MCHist2]. *)
Definition trial2 (a b fmax score : Q) (n : Z) (tot_score : Q) : M Q :=
  x <- uniform a b ;;
  f <- uniform 0 fmax ;;
  f_x <- lift (f_x2 x) ;;
  if Qlt_bool f f_x then ret (tot_score + score) else ret tot_score.

Definition MCHist2 (n_hist : Z) (a b fmax : Q) : M Q :=
  let score := (b - a) * fmax in
  let tot_score := 0 in
  for_each (range 1 n_hist) (trial2 a b fmax score) tot_score.

End SecondEstimator.

(** [x] of a draw is zero. *)
Definition x_is_zero (p : Q * Q) : bool := Qeq_bool (fst p) 0.

(** ** Rounding for display *)

(** The integer nearest to [s], a tie going to the even neighbour. *)
Definition round_half_even (s : Q) : Z :=
  let fl := Qfloor s in
  match Qcompare (s - inject_Z fl) (1 # 2) with
  | Lt => fl
  | Gt => (fl + 1)%Z
  | Eq => if Z.even fl then fl else (fl + 1)%Z
  end.

Definition pow10 (ndigits : nat) : Q := inject_Z (10 ^ Z.of_nat ndigits).

(** [round(x, ndigits)] for [ndigits >= 0], on exact numbers: the nearest
    multiple of 10^-ndigits, ties to even.  Python's [round] does this to
    the exact value of the float it is given and returns the float nearest
    to the result; that last conversion is not modelled. *)
Definition py_round (x : Q) (ndigits : nat) : Q :=
  inject_Z (round_half_even (x * pow10 ndigits)) / pow10 ndigits.

(** ** The estimator over the arithmetic of the machine *)

(** The definitions above compute with exact rationals; the notebook
    computes with the numbers of the machine, binary64 for its float
    arguments, whose operations round.  What a run decides and reads does
    not depend on that, what it adds up does.  The estimator is therefore
    written once more, line for line, over an arbitrary number type with its
    own zero, operations, comparison and conversion from the integers. *)
Module Machine.

Section Arithmetic.

Variable num : Type.
Variable zero : num.
Variables add sub mul div : num -> num -> num.
Variable ltb : num -> num -> bool.
Variable is_zero : num -> bool.
Variable of_Z : Z -> num.

Definition stream : Type := nat -> num.

Record rng : Type := mkRng { deviates : stream; cursor : nat }.

Definition M (A : Type) : Type := rng -> outcome (A * rng).

Definition ret {A} (a : A) : M A := fun g => Returned (a, g).

Definition bind {A B} (m : M A) (k : A -> M B) : M B :=
  fun g => match m g with
           | Returned (a, g') => k a g'
           | Raised e => Raised e
           end.

(** [random.random()] *)
Definition random : M num :=
  fun g => Returned (deviates g (cursor g), mkRng (deviates g) (S (cursor g))).

(** [random.uniform(a, b)] is [a + (b - a) * random()]. *)
Definition uniform (a b : num) : M num :=
  bind random (fun u => ret (add a (mul (sub b a) u))).

(** [for x in xs: s = body(x, s)] *)
Fixpoint for_each {A S : Type} (xs : list A) (body : A -> S -> M S) (s : S) : M S :=
  match xs with
  | [] => ret s
  | x :: xs' => bind (body x s) (fun s' => for_each xs' body s')
  end.

(** The expression assigned to [f_x] in the loop body. *)
Variable integrand : num -> num.

(** One iteration of the loop of [MCHist]. *)
Definition trial (a b fmax score : num) (n : Z) (tot_score : num) : M num :=
  bind (uniform a b) (fun x =>
  bind (uniform zero fmax) (fun f =>
  let f_x := integrand x in
  if ltb f f_x then ret (add tot_score score) else ret tot_score)).

Definition MCHist (n_hist : Z) (a b fmax : num) : M num :=
  let score := mul (sub b a) fmax in
  let tot_score := zero in
  for_each (range 1 n_hist) (trial a b fmax score) tot_score.

(** [x / y]: Python raises on a zero divisor. *)
Definition py_div (x y : num) : outcome num :=
  if is_zero y then Raised ZeroDivisionError else Returned (div x y).

(** [results = MCHist(num_hist, a, b, fmax)] followed by
    [results / num_hist]. *)
Definition estimate (num_hist : Z) (a b fmax : num) (g : rng) : outcome num :=
  match MCHist num_hist a b fmax g with
  | Returned (results, _) => py_div results (of_Z num_hist)
  | Raised e => Raised e
  end.

(** The pairs (x, y) drawn by [k] consecutive trials that start reading
    the stream [u] at position [c]. *)
Fixpoint draws (a b fmax : num) (u : stream) (c k : nat) : list (num * num) :=
  match k with
  | O => []
  | S k' => (add a (mul (sub b a) (u c)), add zero (mul (sub fmax zero) (u (S c))))
              :: draws a b fmax u (S (S c)) k'
  end.

Definition is_hit (p : num * num) : bool := ltb (snd p) (integrand (fst p)).

Definition run_draws (n_hist : Z) (a b fmax : num) (g : rng) : list (num * num) :=
  draws a b fmax (deviates g) (cursor g) (trials n_hist).

Definition hits (n_hist : Z) (a b fmax : num) (g : rng) : nat :=
  length (filter is_hit (run_draws n_hist a b fmax g)).

(** [score] added to [tot] [k] times, one addition after the other. *)
Definition accumulate (k : nat) (score tot : num) : num :=
  Nat.iter k (fun t => add t score) tot.

End Arithmetic.

End Machine.

(** ** Binary64 *)

(** The arithmetic of the notebook's float arguments: IEEE 754 binary64,
    rounding to nearest, ties to even.  A float literal of the source is the
    binary64 nearest to it, here as there. *)
Module Binary64.

(** An integer as a float, for counts within the 63-bit range. *)
Definition of_Z (z : Z) : float :=
  match z with
  | Z0 => 0%float
  | Zpos _ => PrimFloat.of_uint63 (Uint63.of_Z z)
  | Zneg p => PrimFloat.opp (PrimFloat.of_uint63 (Uint63.of_Z (Zpos p)))
  end.

Definition is_zero (x : float) : bool := PrimFloat.eqb x 0%float.

Definition rng : Type := Machine.rng float.

Definition MCHist (integrand : float -> float) (n_hist : Z) (a b fmax : float)
  : Machine.M float float :=
  Machine.MCHist float 0%float PrimFloat.add PrimFloat.sub PrimFloat.mul
    PrimFloat.ltb integrand n_hist a b fmax.

Definition estimate (integrand : float -> float) (num_hist : Z) (a b fmax : float)
    (g : rng) : outcome float :=
  Machine.estimate float 0%float PrimFloat.add PrimFloat.sub PrimFloat.mul
    PrimFloat.div PrimFloat.ltb is_zero of_Z integrand num_hist a b fmax g.

Definition hits (integrand : float -> float) (n_hist : Z) (a b fmax : float)
    (g : rng) : nat :=
  Machine.hits float 0%float PrimFloat.add PrimFloat.sub PrimFloat.mul
    PrimFloat.ltb integrand n_hist a b fmax g.

(** [(hits / n) * (b - a) * fmax], evaluated as Python evaluates it. *)
Definition formula (hits : nat) (n : Z) (a b fmax : float) : outcome float :=
  match Machine.py_div float PrimFloat.div is_zero
          (of_Z (Z.of_nat hits)) (of_Z n) with
  | Returned r =>
      Returned (PrimFloat.mul (PrimFloat.mul r (PrimFloat.sub b a)) fmax)
  | Raised e => Raised e
  end.

(** [k * (b - a) * fmax], evaluated as Python evaluates it. *)
Definition multiple (k : nat) (a b fmax : float) : float :=
  PrimFloat.mul (PrimFloat.mul (of_Z (Z.of_nat k)) (PrimFloat.sub b a)) fmax.

(** A generator whose deviates for x are all 0.5 and for y all 0.0. *)
Definition g_half_zero : rng :=
  Machine.mkRng float (fun i => if Nat.even i then 0.5%float else 0%float) 0.

End Binary64.

(** ** Sanity runs *)

Example MCHist_run_identity :
  MCHist (fun x => x) 4 0 1 1 g0 = Returned (0, mkRng half_stream 6).
Proof. vm_compute. reflexivity. Qed.

Example MCHist_run_square :
  MCHist (fun x => x * x + 1) 4 0 2 1 g0 =
  Returned (0 + 2 * 1 + 2 * 1 + 2 * 1, mkRng half_stream 6).
Proof. vm_compute. reflexivity. Qed.

Example estimate_run_square :
  estimate (fun x => x * x + 1) 4 0 2 1 g0 = Returned ((0 + 2 * 1 + 2 * 1 + 2 * 1) / 4).
Proof. vm_compute. reflexivity. Qed.

(** ** Basic facts *)

Lemma Qlt_bool_iff (x y : Q) : Qlt_bool x y = true <-> x < y.
Proof. unfold Qlt_bool, Qlt. apply Z.ltb_lt. Qed.


Lemma range_length (lo hi : Z) : length (range lo hi) = Z.to_nat (hi - lo).
Proof. unfold range. rewrite length_map, length_seq. reflexivity. Qed.

Lemma trials_eq (n_hist : Z) : trials n_hist = Z.to_nat (n_hist - 1).
Proof. apply range_length. Qed.

Lemma draws_length a b fmax u c k : length (draws a b fmax u c k) = k.
Proof. revert c. induction k as [|k IH]; intros c; simpl; [|rewrite IH]; reflexivity. Qed.

(** The draws depend on the stream only through the window they read. *)
Lemma draws_ext a b fmax (u v : stream) c d k :
  (forall i, (i < 2 * k)%nat -> u (c + i)%nat = v (d + i)%nat) ->
  draws a b fmax u c k = draws a b fmax v d k.
Proof.
  revert c d. induction k as [|k IH]; intros c d H; simpl; [reflexivity|].
  rewrite (IH (S (S c)) (S (S d))).
  - generalize (H 0%nat ltac:(lia)) (H 1%nat ltac:(lia)).
    rewrite !Nat.add_0_r, !Nat.add_1_r. intros -> ->. reflexivity.
  - intros i Hi. generalize (H (S (S i)) ltac:(lia)).
    replace (c + S (S i))%nat with (S (S c) + i)%nat by lia.
    replace (d + S (S i))%nat with (S (S d) + i)%nat by lia. trivial.
Qed.

Section Loop.

Variable integrand : Q -> Q.
Variables a b fmax score : Q.

(** One trial reads two deviates and adds [score] exactly on a hit. *)
Lemma trial_run (n : Z) (tot : Q) (g : rng) :
  trial integrand a b fmax score n tot g =
  Returned (if is_hit integrand (a + (b - a) * deviates g (cursor g),
                                 0 + (fmax - 0) * deviates g (S (cursor g)))
            then tot + score else tot,
            mkRng (deviates g) (S (S (cursor g)))).
Proof.
  unfold trial, uniform, bind, random, ret, is_hit. simpl.
  destruct (Qlt_bool _ _); reflexivity.
Qed.

(** The loop: it returns the tally of its draws, moves the cursor by two
    per trial, and leaves the stream itself as it was. *)
Lemma for_each_trial_run (xs : list Z) (tot : Q) (g : rng) :
  for_each xs (trial integrand a b fmax score) tot g =
  Returned (tally integrand score tot
              (draws a b fmax (deviates g) (cursor g) (length xs)),
            mkRng (deviates g) (cursor g + 2 * length xs)).
Proof.
  revert tot g. induction xs as [|x xs IH]; intros tot g.
  - simpl. unfold ret. rewrite Nat.add_0_r. destruct g; reflexivity.
  - cbn [for_each]. unfold bind at 1. rewrite trial_run, IH.
    cbn [length draws deviates cursor]. unfold tally. cbn [fold_left].
    do 3 f_equal. lia.
Qed.


End Loop.

(** A whole call of [MCHist]: it returns normally, its value is the score
    times the number of hits among its draws, and it leaves the generator
    advanced by two deviates per trial. *)
Lemma MCHist_tally integrand (n_hist : Z) (a b fmax : Q) (g : rng) :
  MCHist integrand n_hist a b fmax g =
  Returned (tally integrand ((b - a) * fmax) 0 (run_draws n_hist a b fmax g),
            mkRng (deviates g) (cursor g + 2 * trials n_hist)).
Proof. unfold MCHist. rewrite for_each_trial_run. reflexivity. Qed.


Lemma inject_Z_nonzero (n : Z) : n <> 0%Z -> ~ inject_Z n == 0.
Proof.
  intros H E. apply H. unfold Qeq in E. simpl in E. lia.
Qed.

Lemma py_div_zero (x : Q) : py_div x (inject_Z 0) = Raised ZeroDivisionError.
Proof. reflexivity. Qed.

Lemma py_div_nonzero (x : Q) (n : Z) :
  n <> 0%Z -> py_div x (inject_Z n) = Returned (x / inject_Z n).
Proof.
  intros H. unfold py_div.
  destruct (Qeq_bool (inject_Z n) 0) eqn:E; [|reflexivity].
  apply Qeq_bool_eq in E. destruct (inject_Z_nonzero n H E).
Qed.


(** ** The trials of a run *)

Lemma half_stream_admissible : admissible half_stream.
Proof. intros i. split; [discriminate | reflexivity]. Qed.

Lemma alt_stream_admissible : admissible (alt_stream (3 # 4) (1 # 4)).
Proof.
  intros i. unfold alt_stream. destruct (Nat.even i); split;
    first [discriminate | reflexivity].
Qed.

Lemma draws_Forall (P : Q * Q -> Prop) a b fmax (u : stream) c k :
  (forall i j, P (a + (b - a) * u i, 0 + (fmax - 0) * u j)) ->
  Forall P (draws a b fmax u c k).
Proof.
  intros H. revert c. induction k as [|k IH]; intros c; simpl; constructor; auto.
Qed.

(** Scaling a deviate of [0, 1) by a positive width. *)
Lemma scale_unit (w t : Q) : 0 < w -> 0 <= t -> t < 1 -> 0 <= w * t /\ w * t < w.
Proof.
  intros Hw Ht0 Ht1. split.
  - apply Qmult_le_0_compat; lra.
  - rewrite <- (Qmult_1_r w) at 2. apply Qmult_lt_l; assumption.
Qed.

(** With deviates in [0, 1), a valid interval and a positive envelope, each
    x drawn lies in [a, b] and each y in [0, fmax]. *)
Lemma run_draws_in_rectangle (n_hist : Z) (a b fmax : Q) (g : rng) :
  admissible (deviates g) -> a < b -> 0 < fmax ->
  Forall (fun p => (a <= fst p /\ fst p <= b) /\ (0 <= snd p /\ snd p <= fmax))
         (run_draws n_hist a b fmax g).
Proof.
  intros Hu Hab Hf. apply draws_Forall. intros i j. simpl.
  destruct (scale_unit (b - a) (deviates g i)) as [Hx0 Hx1];
    [lra | apply Hu | apply Hu |].
  destruct (scale_unit (fmax - 0) (deviates g j)) as [Hy0 Hy1];
    [lra | apply Hu | apply Hu |].
  split; split; lra.
Qed.

(** The i-th trial of a run reads the deviates at positions [c + 2i] (for
    x) and [c + 2i + 1] (for y): no deviate is read twice. *)
Lemma draws_nth a b fmax (u : stream) c k i :
  (i < k)%nat ->
  nth_error (draws a b fmax u c k) i =
  Some (a + (b - a) * u (c + 2 * i)%nat, 0 + (fmax - 0) * u (c + 2 * i + 1)%nat).
Proof.
  revert c i. induction k as [|k IH]; intros c i Hi; [lia|].
  destruct i as [|i]; cbn [draws nth_error].
  - rewrite Nat.mul_0_r, Nat.add_0_r, Nat.add_1_r. reflexivity.
  - rewrite IH by lia.
    replace (S (S c) + 2 * i)%nat with (c + 2 * S i)%nat by lia. reflexivity.
Qed.

(** C4. A call with a positive sample count [n] performs [n - 1] trials,
    not [n]: the loop runs over [range(1, n)].  Each of these trials reads
    two deviates no other trial reads, the first for x and the second for y,
    so the call leaves the generator [2 * (n - 1)] deviates further; with
    deviates in [0, 1), a < b and fmax > 0, every x lies in [a, b] and every
    y in [0, fmax]. *)
Theorem MCHist_performs_n_minus_1_trials
    integrand (n : Z) (a b fmax : Q) (g : rng) :
  (0 < n)%Z ->
  Z.of_nat (length (run_draws n a b fmax g)) = (n - 1)%Z /\
  (exists v,
     MCHist integrand n a b fmax g =
     Returned (v, mkRng (deviates g) (cursor g + 2 * Z.to_nat (n - 1)))) /\
  (forall i, (Z.of_nat i < n - 1)%Z ->
     nth_error (run_draws n a b fmax g) i =
     Some (a + (b - a) * deviates g (cursor g + 2 * i)%nat,
           0 + (fmax - 0) * deviates g (cursor g + 2 * i + 1)%nat)) /\
  (admissible (deviates g) -> a < b -> 0 < fmax ->
   Forall (fun p => (a <= fst p /\ fst p <= b) /\ (0 <= snd p /\ snd p <= fmax))
          (run_draws n a b fmax g)).
Proof.
  intros Hn. split; [|split; [|split]].
  - unfold run_draws. rewrite draws_length, trials_eq. lia.
  - eexists. rewrite MCHist_tally, trials_eq. reflexivity.
  - intros i Hi. apply draws_nth. rewrite trials_eq. lia.
  - apply run_draws_in_rectangle.
Qed.

Lemma MCHist_performs_n_minus_1_trials_witness :
  Z.of_nat (length (run_draws 3 0 1 1 g0)) = (3 - 1)%Z /\
  (exists v,
     MCHist (fun x => x) 3 0 1 1 g0 =
     Returned (v, mkRng (deviates g0) (cursor g0 + 2 * Z.to_nat (3 - 1)))) /\
  nth_error (run_draws 3 0 1 1 g0) 1 =
    Some (0 + (1 - 0) * deviates g0 (cursor g0 + 2 * 1)%nat,
          0 + (1 - 0) * deviates g0 (cursor g0 + 2 * 1 + 1)%nat) /\
  Forall (fun p => (0 <= fst p /\ fst p <= 1) /\ (0 <= snd p /\ snd p <= 1))
         (run_draws 3 0 1 1 g0).
Proof.
  destruct (MCHist_performs_n_minus_1_trials (fun x => x) 3 0 1 1 g0)
    as (Hlen & Hrun & Hnth & Hrect); [lia|].
  split; [exact Hlen|]. split; [exact Hrun|]. split.
  - apply Hnth. lia.
  - apply Hrect; [exact half_stream_admissible | reflexivity | reflexivity].
Defined.

(** A sample count of one draws nothing at all. *)
Example MCHist_one_sample_no_trial :
  MCHist (fun x => x) 1 0 1 1 g0 = Returned (0, g0).
Proof. reflexivity. Qed.

(** ** Hit and miss *)

(** C5. A trial records a hit, adding the score to the running total,
    exactly when the y it drew is strictly below f(x); otherwise, and in
    particular when y equals f(x), it records a miss and leaves the total
    as it was. *)
Theorem trial_hit_iff_strictly_below
    integrand (a b fmax score : Q) (n : Z) (tot : Q) (g : rng) :
  let x := a + (b - a) * deviates g (cursor g) in
  let y := 0 + (fmax - 0) * deviates g (S (cursor g)) in
  exists v,
    trial integrand a b fmax score n tot g =
    Returned (v, mkRng (deviates g) (S (S (cursor g)))) /\
    (is_hit integrand (x, y) = true <-> y < integrand x) /\
    (y < integrand x -> v = tot + score) /\
    (~ y < integrand x -> v = tot) /\
    (y == integrand x -> v = tot).
Proof.
  intros x y. rewrite trial_run. fold x y.
  assert (Hiff : is_hit integrand (x, y) = true <-> y < integrand x)
    by apply Qlt_bool_iff.
  eexists. split; [reflexivity|]. split; [exact Hiff|].
  destruct (is_hit integrand (x, y)) eqn:E.
  - assert (Hlt : y < integrand x) by (apply Hiff; reflexivity).
    repeat split; intros H; try reflexivity.
    + contradiction.
    + rewrite H in Hlt. destruct (Qlt_irrefl _ Hlt).
  - assert (Hnlt : ~ y < integrand x).
    { intros H. apply Hiff in H. discriminate. }
    repeat split; intros H; try reflexivity. contradiction.
Qed.

Lemma trial_hit_iff_strictly_below_witness :
  (exists v,
     trial (fun x => x) 0 1 1 5 1 7 g0 = Returned (v, mkRng half_stream 2) /\
     v = 7) /\
  (exists v,
     trial (fun x => x) 0 1 1 5 1 7 (mkRng (alt_stream (3 # 4) (1 # 4)) 0) =
     Returned (v, mkRng (alt_stream (3 # 4) (1 # 4)) 2) /\
     v = 7 + 5).
Proof.
  split.
  - destruct (trial_hit_iff_strictly_below (fun x => x) 0 1 1 5 1 7 g0)
      as (v & Hrun & _ & _ & _ & Heq).
    exists v. split; [exact Hrun | apply Heq; reflexivity].
  - destruct (trial_hit_iff_strictly_below (fun x => x) 0 1 1 5 1 7
                (mkRng (alt_stream (3 # 4) (1 # 4)) 0))
      as (v & Hrun & _ & Hlt & _).
    exists v. split; [exact Hrun | apply Hlt; reflexivity].
Defined.

(** ** An envelope below the integrand *)

(** A y drawn from [0, fmax] is a hit wherever the integrand exceeds fmax. *)
Lemma is_hit_overshoot (integrand : Q -> Q) (fmax x y : Q) :
  y <= fmax -> fmax < integrand x -> is_hit integrand (x, y) = true.
Proof.
  intros Hy Hx. unfold is_hit. cbn [fst snd]. apply Qlt_bool_iff. lra.
Qed.

(** Where the integrand is nowhere below the envelope, every draw is a
    hit. *)
Lemma draws_all_hit (integrand : Q -> Q) (a b fmax : Q) (u : stream) (c k : nat) :
  0 < fmax -> admissible u ->
  (forall x, fmax <= integrand x) ->
  Forall (fun p => is_hit integrand p = true) (draws a b fmax u c k).
Proof.
  intros Hf Hu Hge. apply draws_Forall. intros i j. unfold is_hit. cbn [fst snd].
  apply Qlt_bool_iff.
  destruct (scale_unit (fmax - 0) (u j)) as [_ Hy];
    [lra | apply Hu | apply Hu |].
  specialize (Hge (a + (b - a) * u i)). lra.
Qed.

Lemma hits_all (integrand : Q -> Q) (n_hist : Z) (a b fmax : Q) (g : rng) :
  0 < fmax -> admissible (deviates g) ->
  (forall x, fmax <= integrand x) ->
  hits integrand n_hist a b fmax g = trials n_hist.
Proof.
  intros Hf Hu Hge. unfold hits.
  rewrite forallb_filter_id; [apply draws_length|].
  apply forallb_forall, Forall_forall. apply draws_all_hit; assumption.
Qed.




(** A trial whose x has f(x) above the envelope is a hit whatever y of
    [0, fmax] it draws; hence, over deviates in [0, 1), a call whose
    integrand is above the envelope everywhere scores a hit in every trial
    it runs. *)
Theorem overshoot_always_hits (integrand : Q -> Q) (a b fmax : Q) :
  0 < fmax ->
  (forall x y, 0 <= y -> y <= fmax -> fmax < integrand x ->
     is_hit integrand (x, y) = true) /\
  (forall score n tot g,
     admissible (deviates g) ->
     fmax < integrand (a + (b - a) * deviates g (cursor g)) ->
     trial integrand a b fmax score n tot g =
     Returned (tot + score, mkRng (deviates g) (S (S (cursor g))))) /\
  (forall n g,
     admissible (deviates g) ->
     (forall x, fmax < integrand x) ->
     hits integrand n a b fmax g = trials n).
Proof.
  intros Hf. split; [|split].
  - intros x y _ Hy Hx. apply (is_hit_overshoot integrand fmax); assumption.
  - intros score n tot g Hu Hx. rewrite trial_run.
    rewrite (is_hit_overshoot integrand fmax); [reflexivity| |exact Hx].
    destruct (scale_unit (fmax - 0) (deviates g (S (cursor g)))) as [_ Hy];
      [lra | apply Hu | apply Hu |]. lra.
  - intros n g Hu Hx. apply hits_all; [exact Hf | exact Hu |].
    intros x. apply Qlt_le_weak, Hx.
Qed.

Lemma overshoot_always_hits_witness :
  is_hit (fun x => x * x + 1) (2, 1 # 2) = true /\
  hits (fun x => x * x + 1) 4 0 2 (1 # 2) g0 = trials 4.
Proof.
  destruct (overshoot_always_hits (fun x => x * x + 1) 0 2 (1 # 2))
    as (H1 & _ & H3); [reflexivity|].
  split.
  - apply H1; [discriminate | discriminate | reflexivity].
  - apply H3; [exact half_stream_admissible|].
    intros x. assert (H : 0 <= x * x) by nra. lra.
Defined.

(** ** An integrand that is nowhere below the envelope *)



(** ** Determinism and the generator *)

(** C8. A call is a function of its arguments and of the deviates it reads:
    two calls with the same arguments whose generators deliver the same
    deviates return the same value, and the same published estimate.  The
    only state a call changes is the generator, and that only by moving its
    cursor past the deviates read, two per trial. *)
Theorem MCHist_deterministic_consumes_only_deviates
    (integrand : Q -> Q) (n : Z) (a b fmax : Q) (g1 g2 : rng) :
  (forall i, (i < 2 * trials n)%nat ->
     deviates g1 (cursor g1 + i)%nat = deviates g2 (cursor g2 + i)%nat) ->
  exists v,
    MCHist integrand n a b fmax g1 =
      Returned (v, mkRng (deviates g1) (cursor g1 + 2 * trials n)) /\
    MCHist integrand n a b fmax g2 =
      Returned (v, mkRng (deviates g2) (cursor g2 + 2 * trials n)) /\
    estimate integrand n a b fmax g1 = estimate integrand n a b fmax g2.
Proof.
  intros Hsame.
  assert (E : run_draws n a b fmax g1 = run_draws n a b fmax g2)
    by (apply draws_ext, Hsame).
  exists (tally integrand ((b - a) * fmax) 0 (run_draws n a b fmax g1)).
  split; [apply MCHist_tally|]. split.
  - rewrite E. apply MCHist_tally.
  - unfold estimate. rewrite !MCHist_tally, E. reflexivity.
Qed.

Lemma MCHist_deterministic_consumes_only_deviates_witness :
  exists v,
    MCHist (fun x => x * x) 4 0 2 4 g0 =
      Returned (v, mkRng (deviates g0) (cursor g0 + 2 * trials 4)) /\
    MCHist (fun x => x * x) 4 0 2 4 (mkRng half_stream 5) =
      Returned (v, mkRng half_stream (5 + 2 * trials 4)) /\
    estimate (fun x => x * x) 4 0 2 4 g0 =
    estimate (fun x => x * x) 4 0 2 4 (mkRng half_stream 5).
Proof.
  apply (MCHist_deterministic_consumes_only_deviates
           (fun x => x * x) 4 0 2 4 g0 (mkRng half_stream 5)).
  intros i _. reflexivity.
Defined.

(** ** Sample counts of at most one *)

Lemma range_empty (lo hi : Z) : (hi <= lo)%Z -> range lo hi = [].
Proof.
  intros H. unfold range. replace (Z.to_nat (hi - lo)) with 0%nat by lia.
  reflexivity.
Qed.

(** C10, as the code has it.  For a sample count of at most one (zero and
    negative counts included) a call draws nothing, leaves the generator
    untouched and returns exactly 0 without raising.  The published estimate
    is then 0 for every such count except zero; for a count of zero the
    division by the count raises ZeroDivisionError. *)
Theorem MCHist_small_count_returns_zero
    (integrand : Q -> Q) (n_hist : Z) (a b fmax : Q) (g : rng) :
  (n_hist <= 1)%Z ->
  run_draws n_hist a b fmax g = [] /\
  MCHist integrand n_hist a b fmax g = Returned (0, g) /\
  (n_hist <> 0%Z ->
   exists est, estimate integrand n_hist a b fmax g = Returned est /\ est == 0) /\
  (n_hist = 0%Z ->
   estimate integrand n_hist a b fmax g = Raised ZeroDivisionError).
Proof.
  intros Hn.
  assert (Hrun : MCHist integrand n_hist a b fmax g = Returned (0, g)).
  { unfold MCHist. rewrite range_empty by exact Hn. reflexivity. }
  split; [|split; [exact Hrun|split]].
  - unfold run_draws, trials. rewrite range_empty by exact Hn. reflexivity.
  - intros Hnz. exists (0 / inject_Z n_hist). split.
    + unfold estimate. rewrite Hrun. apply py_div_nonzero, Hnz.
    + field. apply inject_Z_nonzero, Hnz.
  - intros ->. unfold estimate. rewrite Hrun. reflexivity.
Qed.

Lemma MCHist_small_count_returns_zero_witness :
  (run_draws (-3) 0 1 1 g0 = [] /\
   MCHist (fun x => x) (-3) 0 1 1 g0 = Returned (0, g0) /\
   exists est, estimate (fun x => x) (-3) 0 1 1 g0 = Returned est /\ est == 0) /\
  (MCHist (fun x => x) 0 0 1 1 g0 = Returned (0, g0) /\
   estimate (fun x => x) 0 0 1 1 g0 = Raised ZeroDivisionError).
Proof.
  split.
  - destruct (MCHist_small_count_returns_zero (fun x => x) (-3) 0 1 1 g0)
      as (Hd & Hrun & Hnz & _); [lia|].
    split; [exact Hd|]. split; [exact Hrun | apply Hnz; lia].
  - destruct (MCHist_small_count_returns_zero (fun x => x) 0 0 1 1 g0)
      as (_ & Hrun & _ & Hz); [lia|].
    split; [exact Hrun | apply Hz; reflexivity].
Defined.

(** C10 as stated fails for a sample count of zero: nothing is published,
    the division raises. *)
Lemma estimate_zero_count_raises :
  MCHist (fun x => x) 0 0 1 1 g0 = Returned (0, g0) /\
  estimate (fun x => x) 0 0 1 1 g0 = Raised ZeroDivisionError /\
  ~ (exists est, estimate (fun x => x) 0 0 1 1 g0 = Returned est /\ est == 0).
Proof.
  split; [reflexivity|]. split; [reflexivity|].
  intros (est & H & _). discriminate H.
Qed.

(** ** Inputs the specification calls invalid *)

(** C3, as the code has it.  Nothing is validated.  Whatever the arguments
    (also for a >= b, fmax <= 0 or n <= 0) the call returns normally.  The
    only failure of the whole computation is the ZeroDivisionError of the
    publishing division, raised for a sample count of zero, after the call
    has returned: none of InvalidInterval, InvalidEnvelope,
    InvalidSampleCount is ever raised. *)
Theorem MCHist_validates_nothing
    (integrand : Q -> Q) (n : Z) (a b fmax : Q) (g : rng) :
  (exists v g', MCHist integrand n a b fmax g = Returned (v, g')) /\
  (forall e, MCHist integrand n a b fmax g <> Raised e) /\
  (forall e, estimate integrand n a b fmax g = Raised e ->
             e = ZeroDivisionError /\ n = 0%Z).
Proof.
  pose proof (MCHist_tally integrand n a b fmax g) as Hrun.
  split; [eexists; eexists; exact Hrun|].
  split; [intros e; rewrite Hrun; discriminate|].
  intros e. unfold estimate. rewrite Hrun.
  destruct (Z.eq_dec n 0) as [->|Hnz].
  - rewrite py_div_zero. intros [= <-]. split; reflexivity.
  - rewrite py_div_nonzero by exact Hnz. discriminate.
Qed.

Lemma MCHist_validates_nothing_witness :
  (exists v g', MCHist (fun x => x * x + 1) 4 2 0 (-1) g0 = Returned (v, g')) /\
  (exists v g', MCHist (fun x => x * x + 1) 0 2 0 (-1) g0 = Returned (v, g')) /\
  ZeroDivisionError = ZeroDivisionError /\ 0%Z = 0%Z.
Proof.
  destruct (MCHist_validates_nothing (fun x => x * x + 1) 4 2 0 (-1) g0)
    as (Hret & _ & _).
  destruct (MCHist_validates_nothing (fun x => x * x + 1) 0 2 0 (-1) g0)
    as (Hret0 & _ & Hexn).
  split; [exact Hret|]. split; [exact Hret0|].
  apply Hexn. reflexivity.
Defined.

(** C3 as stated fails: an inverted interval, a negative envelope and a
    non-positive sample count each make the call return a number. *)
Lemma invalid_inputs_are_accepted :
  (MCHist (fun x => x) 3 1 0 1 g0 = Returned (0, mkRng half_stream 4) /\
   MCHist (fun x => x) 3 1 0 1 g0 <> Raised InvalidInterval /\
   estimate (fun x => x) 3 1 0 1 g0 <> Raised InvalidInterval) /\
  (MCHist (fun x => x) 3 0 1 (-1) g0 =
     Returned (0 + (1 - 0) * -1 + (1 - 0) * -1, mkRng half_stream 4) /\
   MCHist (fun x => x) 3 0 1 (-1) g0 <> Raised InvalidEnvelope /\
   estimate (fun x => x) 3 0 1 (-1) g0 <> Raised InvalidEnvelope) /\
  (MCHist (fun x => x) (-2) 0 1 1 g0 = Returned (0, g0) /\
   MCHist (fun x => x) (-2) 0 1 1 g0 <> Raised InvalidSampleCount /\
   estimate (fun x => x) (-2) 0 1 1 g0 <> Raised InvalidSampleCount /\
   estimate (fun x => x) 0 0 1 1 g0 <> Raised InvalidSampleCount).
Proof.
  repeat split; try (vm_compute; reflexivity); vm_compute; discriminate.
Qed.

(** ** One history *)

(** C2.  A sample count of one is a valid input, and for it the loop
    [range(1, 1)] is empty: whatever the integrand, the interval, the
    envelope and the deviates, no trial is run, the call returns 0 and 0 is
    published.  The estimate of a run with one history is therefore 0 with
    certainty, whatever the integral. *)
Theorem single_history_publishes_zero
    (integrand : Q -> Q) (a b fmax : Q) (g : rng) :
  run_draws 1 a b fmax g = [] /\
  MCHist integrand 1 a b fmax g = Returned (0, g) /\
  exists est, estimate integrand 1 a b fmax g = Returned est /\ est == 0.
Proof.
  assert (Hrun : MCHist integrand 1 a b fmax g = Returned (0, g)) by reflexivity.
  split; [reflexivity|]. split; [exact Hrun|].
  exists (0 / inject_Z 1). split; [|reflexivity].
  unfold estimate. rewrite Hrun. reflexivity.
Qed.

(** ** Further sanity runs *)

Example MCHist2_run_right_of_zero :
  MCHist2 (fun x => 1 + x) 3 1 4 100 g0 =
  MCHist (integrand2 (fun x => 1 + x)) 3 1 4 100 g0.
Proof. vm_compute. reflexivity. Qed.

Example MCHist2_run_through_zero :
  MCHist2 (fun x => 1 + x) 3 (-1) 1 100 g0 = Raised ZeroDivisionError.
Proof. vm_compute. reflexivity. Qed.

Example py_round_examples :
  py_round (1 # 3) 6 == 333333 # 1000000 /\
  py_round (- (2 # 3)) 6 == - (666667 # 1000000).
Proof. split; vm_compute; reflexivity. Qed.

(** ** Runs in batches *)

Lemma draws_app a b fmax (u : stream) c k1 k2 :
  draws a b fmax u c (k1 + k2) =
  draws a b fmax u c k1 ++ draws a b fmax u (c + 2 * k1) k2.
Proof.
  revert c. induction k1 as [|k1 IH]; intros c.
  - simpl. rewrite Nat.add_0_r. reflexivity.
  - cbn [Nat.add draws app]. rewrite IH. do 3 f_equal. lia.
Qed.

Lemma trials_batches (n1 n2 : Z) :
  (1 <= n1)%Z -> (1 <= n2)%Z ->
  trials (n1 + n2 - 1) = (trials n1 + trials n2)%nat.
Proof. intros H1 H2. rewrite !trials_eq. lia. Qed.

(** Two calls in a row run the trials of one longer call: the second call
    reads the stream where the first stopped, and a call with sample count
    n1 + n2 - 1 draws what calls with n1 and with n2 draw one after the
    other, has as many hits as the two together, and leaves the generator in
    the same state. *)
Theorem MCHist_batches
    (integrand : Q -> Q) (n1 n2 : Z) (a b fmax : Q) (g : rng) :
  (1 <= n1)%Z -> (1 <= n2)%Z ->
  exists v1 g1 v2 g2 v,
    MCHist integrand n1 a b fmax g = Returned (v1, g1) /\
    MCHist integrand n2 a b fmax g1 = Returned (v2, g2) /\
    MCHist integrand (n1 + n2 - 1) a b fmax g = Returned (v, g2) /\
    run_draws (n1 + n2 - 1) a b fmax g =
      run_draws n1 a b fmax g ++ run_draws n2 a b fmax g1 /\
    hits integrand (n1 + n2 - 1) a b fmax g =
      (hits integrand n1 a b fmax g + hits integrand n2 a b fmax g1)%nat.
Proof.
  intros H1 H2.
  set (g1 := mkRng (deviates g) (cursor g + 2 * trials n1)).
  assert (Hd : run_draws (n1 + n2 - 1) a b fmax g =
               run_draws n1 a b fmax g ++ run_draws n2 a b fmax g1).
  { unfold run_draws. rewrite trials_batches by assumption.
    rewrite draws_app. reflexivity. }
  exists (tally integrand ((b - a) * fmax) 0 (run_draws n1 a b fmax g)), g1.
  exists (tally integrand ((b - a) * fmax) 0 (run_draws n2 a b fmax g1)).
  exists (mkRng (deviates g1) (cursor g1 + 2 * trials n2)).
  exists (tally integrand ((b - a) * fmax) 0 (run_draws (n1 + n2 - 1) a b fmax g)).
  split; [apply MCHist_tally|]. split; [apply MCHist_tally|]. split; [|split].
  - rewrite MCHist_tally, trials_batches by assumption.
    unfold g1. cbn [deviates cursor]. do 3 f_equal. lia.
  - exact Hd.
  - unfold hits. rewrite Hd, filter_app, length_app. reflexivity.
Qed.

Lemma MCHist_batches_witness :
  exists v1 g1 v2 g2 v,
    MCHist (fun x => x * x) 3 0 2 4 (mkRng (alt_stream (3 # 4) (1 # 4)) 0)
      = Returned (v1, g1) /\
    MCHist (fun x => x * x) 4 0 2 4 g1 = Returned (v2, g2) /\
    MCHist (fun x => x * x) (3 + 4 - 1) 0 2 4 (mkRng (alt_stream (3 # 4) (1 # 4)) 0)
      = Returned (v, g2) /\
    run_draws (3 + 4 - 1) 0 2 4 (mkRng (alt_stream (3 # 4) (1 # 4)) 0) =
      run_draws 3 0 2 4 (mkRng (alt_stream (3 # 4) (1 # 4)) 0) ++ run_draws 4 0 2 4 g1 /\
    hits (fun x => x * x) (3 + 4 - 1) 0 2 4 (mkRng (alt_stream (3 # 4) (1 # 4)) 0) =
      Nat.add (hits (fun x => x * x) 3 0 2 4 (mkRng (alt_stream (3 # 4) (1 # 4)) 0))
              (hits (fun x => x * x) 4 0 2 4 g1).
Proof.
  apply (MCHist_batches (fun x => x * x) 3 4 0 2 4
           (mkRng (alt_stream (3 # 4) (1 # 4)) 0)); lia.
Defined.

(** ** Comparing runs over the same deviates *)

(** Two runs over the same stream, with their own integrands and envelopes:
    if whatever hits in the first hits in the second, the first has no more
    hits. *)
Lemma hit_count_le (f1 f2 : Q -> Q) (a b fmax1 fmax2 : Q) (u : stream) (c k : nat) :
  (forall i j,
     is_hit f1 (a + (b - a) * u i, 0 + (fmax1 - 0) * u j) = true ->
     is_hit f2 (a + (b - a) * u i, 0 + (fmax2 - 0) * u j) = true) ->
  (length (filter (is_hit f1) (draws a b fmax1 u c k)) <=
   length (filter (is_hit f2) (draws a b fmax2 u c k)))%nat.
Proof.
  intros H. revert c. induction k as [|k IH]; intros c; [reflexivity|].
  cbn [draws filter]. specialize (IH (S (S c))). specialize (H c (S c)).
  destruct (is_hit f1 _) eqn:E1.
  - rewrite H by reflexivity. cbn [length]. lia.
  - destruct (is_hit f2 _); cbn [length]; lia.
Qed.

(** A higher envelope never gains a hit: over the same deviates in [0, 1),
    raising fmax raises every y drawn and leaves every x as it was, so the
    call with the higher envelope has at most as many hits. *)
Theorem MCHist_hits_antitone_in_envelope
    (integrand : Q -> Q) (n : Z) (a b fmax1 fmax2 : Q) (g : rng) :
  admissible (deviates g) -> fmax1 <= fmax2 ->
  (hits integrand n a b fmax2 g <= hits integrand n a b fmax1 g)%nat.
Proof.
  intros Hu Hle. apply hit_count_le. intros i j. unfold is_hit. cbn [fst snd].
  rewrite !Qlt_bool_iff. apply Qle_lt_trans.
  assert (Hj : 0 <= deviates g j) by apply Hu.
  assert (Hm : (fmax1 - 0) * deviates g j <= (fmax2 - 0) * deviates g j)
    by (apply Qmult_le_compat_r; lra).
  lra.
Qed.

Lemma MCHist_hits_antitone_in_envelope_witness :
  le (hits (fun x => x * x) 5 0 2 8 (mkRng (alt_stream (3 # 4) (1 # 4)) 0))
     (hits (fun x => x * x) 5 0 2 4 (mkRng (alt_stream (3 # 4) (1 # 4)) 0)).
Proof.
  apply (MCHist_hits_antitone_in_envelope (fun x => x * x) 5 0 2 4 8
           (mkRng (alt_stream (3 # 4) (1 # 4)) 0));
    [exact alt_stream_admissible | discriminate].
Defined.



(** ** The second estimator: division by the drawn x *)

Section SecondEstimatorFacts.

Variable exp : Q -> Q.

Lemma f_x2_zero (x : Q) :
  Qeq_bool x 0 = true -> f_x2 exp x = Raised ZeroDivisionError.
Proof. intros H. unfold f_x2, py_div. rewrite H. reflexivity. Qed.

Lemma f_x2_nonzero (x : Q) :
  Qeq_bool x 0 = false -> f_x2 exp x = Returned (integrand2 exp x).
Proof. intros H. unfold f_x2, py_div. rewrite H. reflexivity. Qed.

(** A trial of [MCHist2] raises when the x it drew is zero, and is
    otherwise the trial of [MCHist] for the same expression. *)
Lemma trial2_run (a b fmax score : Q) (n : Z) (tot : Q) (g : rng) :
  trial2 exp a b fmax score n tot g =
  if Qeq_bool (a + (b - a) * deviates g (cursor g)) 0
  then Raised ZeroDivisionError
  else trial (integrand2 exp) a b fmax score n tot g.
Proof.
  unfold trial2, trial, uniform, bind, random, ret, lift. cbn [deviates cursor].
  destruct (Qeq_bool (a + (b - a) * deviates g (cursor g)) 0) eqn:E.
  - rewrite (f_x2_zero _ E). reflexivity.
  - rewrite (f_x2_nonzero _ E). reflexivity.
Qed.

Lemma for_each_trial2_run (a b fmax score : Q) (xs : list Z) (tot : Q) (g : rng) :
  for_each xs (trial2 exp a b fmax score) tot g =
  if existsb x_is_zero (draws a b fmax (deviates g) (cursor g) (length xs))
  then Raised ZeroDivisionError
  else for_each xs (trial (integrand2 exp) a b fmax score) tot g.
Proof.
  revert tot g. induction xs as [|x xs IH]; intros tot g; [reflexivity|].
  cbn [for_each length draws existsb]. unfold bind.
  rewrite trial2_run. unfold x_is_zero at 1. cbn [fst].
  destruct (Qeq_bool (a + (b - a) * deviates g (cursor g)) 0); [reflexivity|].
  cbn [orb]. rewrite trial_run, IH. reflexivity.
Qed.

(** A whole call of [MCHist2]. *)
Lemma MCHist2_run (n_hist : Z) (a b fmax : Q) (g : rng) :
  MCHist2 exp n_hist a b fmax g =
  if existsb x_is_zero (run_draws n_hist a b fmax g)
  then Raised ZeroDivisionError
  else MCHist (integrand2 exp) n_hist a b fmax g.
Proof. unfold MCHist2, MCHist. apply for_each_trial2_run. Qed.

End SecondEstimatorFacts.

(** [MCHist2] fails exactly when one of its trials draws x = 0, and then
    with ZeroDivisionError, the error of dividing by that x; in particular a
    call that runs no trial never fails. *)
Theorem MCHist2_raises_iff_zero_drawn
    (exp : Q -> Q) (n : Z) (a b fmax : Q) (g : rng) :
  ((exists e, MCHist2 exp n a b fmax g = Raised e) <->
   Exists (fun p => fst p == 0) (run_draws n a b fmax g)) /\
  (forall e, MCHist2 exp n a b fmax g = Raised e -> e = ZeroDivisionError) /\
  ((n <= 1)%Z -> MCHist2 exp n a b fmax g = Returned (0, g)).
Proof.
  rewrite MCHist2_run.
  assert (Hex : existsb x_is_zero (run_draws n a b fmax g) = true <->
                Exists (fun p => fst p == 0) (run_draws n a b fmax g)).
  { rewrite existsb_exists, Exists_exists.
    split; intros (p & Hin & Hp); exists p; (split; [exact Hin|]);
      unfold x_is_zero in *; apply Qeq_bool_iff; exact Hp. }
  split; [|split].
  - rewrite <- Hex.
    destruct (existsb x_is_zero (run_draws n a b fmax g)).
    + split; [reflexivity | intros _; eexists; reflexivity].
    + rewrite MCHist_tally. split; [intros (e & H); discriminate H | discriminate].
  - intros e.
    destruct (existsb x_is_zero (run_draws n a b fmax g)).
    + intros [= <-]. reflexivity.
    + rewrite MCHist_tally. discriminate.
  - intros Hn. unfold run_draws, trials, MCHist.
    rewrite range_empty by exact Hn. reflexivity.
Qed.

Lemma MCHist2_raises_iff_zero_drawn_witness :
  (exists e, MCHist2 (fun x => 1 + x) 3 (-1) 1 100 g0 = Raised e) /\
  MCHist2 (fun x => 1 + x) 1 (-1) 1 100 g0 = Returned (0, g0).
Proof.
  destruct (MCHist2_raises_iff_zero_drawn (fun x => 1 + x) 3 (-1) 1 100 g0)
    as ((_ & Hraise) & _ & _).
  destruct (MCHist2_raises_iff_zero_drawn (fun x => 1 + x) 1 (-1) 1 100 g0)
    as (_ & _ & Hsmall).
  split.
  - apply Hraise. apply Exists_cons_hd. reflexivity.
  - apply Hsmall. lia.
Defined.

(** On an interval to the right of zero, 0 < a <= b, and with deviates in
    [0, 1), no x drawn is zero: [MCHist2] returns normally, it is [MCHist]
    for the integrand exp(x)/x + exp(1/x), and it moves the generator two
    deviates per trial. *)
Theorem MCHist2_right_of_zero
    (exp : Q -> Q) (n : Z) (a b fmax : Q) (g : rng) :
  0 < a -> a <= b -> admissible (deviates g) ->
  MCHist2 exp n a b fmax g = MCHist (integrand2 exp) n a b fmax g /\
  exists v,
    MCHist2 exp n a b fmax g =
      Returned (v, mkRng (deviates g) (cursor g + 2 * trials n)).
Proof.
  intros Ha Hab Hu.
  assert (E : MCHist2 exp n a b fmax g = MCHist (integrand2 exp) n a b fmax g).
  { rewrite MCHist2_run.
    destruct (existsb x_is_zero (run_draws n a b fmax g)) eqn:Hz; [|reflexivity].
    apply existsb_exists in Hz. destruct Hz as (p & Hin & Hp).
    assert (Hall : Forall (fun p => 0 < fst p) (run_draws n a b fmax g)).
    { apply draws_Forall. intros i j. cbn [fst].
      assert (0 <= (b - a) * deviates g i)
        by (apply Qmult_le_0_compat; [lra | apply Hu]).
      lra. }
    rewrite Forall_forall in Hall. specialize (Hall p Hin).
    unfold x_is_zero in Hp. apply Qeq_bool_iff in Hp. lra. }
  split; [exact E|]. rewrite E. eexists. apply MCHist_tally.
Qed.

Lemma MCHist2_right_of_zero_witness :
  MCHist2 (fun x => 1 + x) 4 1 4 4 g0 =
  MCHist (integrand2 (fun x => 1 + x)) 4 1 4 4 g0 /\
  exists v,
    MCHist2 (fun x => 1 + x) 4 1 4 4 g0 =
      Returned (v, mkRng (deviates g0) (cursor g0 + 2 * trials 4)).
Proof.
  apply (MCHist2_right_of_zero (fun x => 1 + x) 4 1 4 4 g0);
    [reflexivity | discriminate | exact half_stream_admissible].
Defined.

(** ** Rounding to the nearest integer, ties to even *)

Lemma Qfloor_bounds (s : Q) :
  inject_Z (Qfloor s) <= s /\ s < inject_Z (Qfloor s) + 1.
Proof.
  split; [apply Qfloor_le|].
  pose proof (Qlt_floor s) as H. rewrite inject_Z_plus in H. exact H.
Qed.

Lemma Qfloor_unique (s : Q) (m : Z) :
  inject_Z m <= s -> s < inject_Z m + 1 -> Qfloor s = m.
Proof.
  intros Hlo Hhi. destruct (Qfloor_bounds s) as [Flo Fhi].
  assert (H1 : inject_Z (Qfloor s) < inject_Z (m + 1))
    by (rewrite inject_Z_plus; change (inject_Z 1) with 1; lra).
  assert (H2 : inject_Z m < inject_Z (Qfloor s + 1))
    by (rewrite inject_Z_plus; change (inject_Z 1) with 1; lra).
  rewrite <- Zlt_Qlt in H1, H2. lia.
Qed.

Lemma round_half_even_near (s : Q) :
  inject_Z (round_half_even s) - s <= 1 # 2 /\
  s - inject_Z (round_half_even s) <= 1 # 2.
Proof.
  unfold round_half_even. destruct (Qfloor_bounds s) as [Flo Fhi].
  destruct (Qcompare_spec (s - inject_Z (Qfloor s)) (1 # 2)) as [E|L|G].
  - destruct (Z.even (Qfloor s));
      [|rewrite inject_Z_plus; change (inject_Z 1) with 1]; split; lra.
  - split; lra.
  - rewrite inject_Z_plus. change (inject_Z 1) with 1. split; lra.
Qed.

Lemma round_half_even_nearest (s : Q) (m : Z) :
  inject_Z m - (1 # 2) < s -> s < inject_Z m + (1 # 2) ->
  round_half_even s = m.
Proof.
  intros Hlo Hhi. unfold round_half_even.
  destruct (Qlt_le_dec s (inject_Z m)) as [Hlt|Hge].
  - assert (Hm : inject_Z (m - 1) == inject_Z m - 1).
    { replace (m - 1)%Z with (m + -1)%Z by lia. rewrite inject_Z_plus.
      change (inject_Z (-1)) with (- (1)). ring. }
    assert (F : Qfloor s = (m - 1)%Z) by (apply Qfloor_unique; lra).
    rewrite F.
    destruct (Qcompare_spec (s - inject_Z (m - 1)) (1 # 2)) as [E|L|G];
      [lra | lra | lia].
  - assert (F : Qfloor s = m) by (apply Qfloor_unique; lra).
    rewrite F.
    destruct (Qcompare_spec (s - inject_Z m) (1 # 2)) as [E|L|G];
      [lra | reflexivity | lra].
Qed.

Lemma round_half_even_comp (s t : Q) :
  s == t -> round_half_even s = round_half_even t.
Proof.
  intros H. unfold round_half_even.
  assert (F : Qfloor s = Qfloor t) by (apply Qfloor_comp; exact H).
  rewrite F.
  assert (C : Qcompare (s - inject_Z (Qfloor t)) (1 # 2) =
              Qcompare (t - inject_Z (Qfloor t)) (1 # 2))
    by (apply Qcompare_comp; [rewrite H|]; reflexivity).
  rewrite C. reflexivity.
Qed.

Lemma round_half_even_mono (s t : Q) :
  s <= t -> (round_half_even s <= round_half_even t)%Z.
Proof.
  intros Hst.
  destruct (Z_le_gt_dec (round_half_even s) (round_half_even t)) as [H|H];
    [exact H|].
  destruct (round_half_even_near s) as [Hs _].
  destruct (round_half_even_near t) as [_ Ht].
  assert (Hgap : inject_Z (round_half_even t) + 1 <= inject_Z (round_half_even s)).
  { change 1 with (inject_Z 1). rewrite <- inject_Z_plus, <- Zle_Qle. lia. }
  assert (E : s == t) by lra.
  rewrite (round_half_even_comp s t E) in H. lia.
Qed.

Lemma pow10_pos (ndigits : nat) : 0 < pow10 ndigits.
Proof.
  unfold pow10. change 0 with (inject_Z 0). rewrite <- Zlt_Qlt.
  apply Z.pow_pos_nonneg; lia.
Qed.

(** ** [round(x, ndigits)] *)

(** A number that already has at most [ndigits] decimals is left as it is,
    so that rounding twice is rounding once. *)
Theorem py_round_idempotent (x : Q) (ndigits : nat) (m : Z) :
  py_round (inject_Z m / pow10 ndigits) ndigits = inject_Z m / pow10 ndigits /\
  py_round (py_round x ndigits) ndigits = py_round x ndigits.
Proof.
  assert (Hfix : forall k : Z,
            py_round (inject_Z k / pow10 ndigits) ndigits = inject_Z k / pow10 ndigits).
  { intros k. unfold py_round at 1.
    assert (Hs : inject_Z k / pow10 ndigits * pow10 ndigits == inject_Z k).
    { field. pose proof (pow10_pos ndigits). lra. }
    rewrite (round_half_even_nearest _ k); [reflexivity | |]; rewrite Hs; lra. }
  split; [apply Hfix|]. unfold py_round at 2 3. apply Hfix.
Qed.

(** Rounding keeps the order. *)
Theorem py_round_monotone (x y : Q) (ndigits : nat) :
  x <= y -> py_round x ndigits <= py_round y ndigits.
Proof.
  intros Hxy. unfold py_round, Qdiv. pose proof (pow10_pos ndigits) as HP.
  apply Qmult_le_compat_r; [|apply Qinv_le_0_compat; lra].
  rewrite <- Zle_Qle. apply round_half_even_mono.
  apply Qmult_le_compat_r; lra.
Qed.

Lemma py_round_monotone_witness : py_round (1 # 3) 6 <= py_round (2 # 3) 6.
Proof. apply (py_round_monotone (1 # 3) (2 # 3) 6). discriminate. Defined.

(** ** The estimator over any arithmetic *)

Section MachineFacts.

Variable num : Type.
Variable zero : num.
Variables add sub mul div : num -> num -> num.
Variable ltb : num -> num -> bool.
Variable is_zero : num -> bool.
Variable of_Z : Z -> num.
Variable integrand : num -> num.

Lemma machine_draws_length a b fmax (u : Machine.stream num) c k :
  length (Machine.draws num zero add sub mul a b fmax u c k) = k.
Proof. revert c. induction k as [|k IH]; intros c; simpl; [|rewrite IH]; reflexivity. Qed.

(** One trial reads two deviates and adds [score] exactly on a hit. *)
Lemma machine_trial_run (a b fmax score : num) (n : Z) (tot : num)
    (g : Machine.rng num) :
  Machine.trial num zero add sub mul ltb integrand a b fmax score n tot g =
  Returned
    (if Machine.is_hit num ltb integrand
          (add a (mul (sub b a) (Machine.deviates num g (Machine.cursor num g))),
           add zero (mul (sub fmax zero)
                         (Machine.deviates num g (S (Machine.cursor num g)))))
     then add tot score else tot,
     Machine.mkRng num (Machine.deviates num g) (S (S (Machine.cursor num g)))).
Proof.
  unfold Machine.trial, Machine.uniform, Machine.bind, Machine.random,
    Machine.ret, Machine.is_hit. simpl.
  destruct (ltb _ _); reflexivity.
Qed.

(** The loop adds [score] once per hit, one addition after the other. *)
Lemma machine_for_each_run (a b fmax score : num) (xs : list Z) (tot : num)
    (g : Machine.rng num) :
  Machine.for_each num xs
    (Machine.trial num zero add sub mul ltb integrand a b fmax score) tot g =
  Returned
    (Machine.accumulate num add
       (length (filter (Machine.is_hit num ltb integrand)
                  (Machine.draws num zero add sub mul a b fmax
                     (Machine.deviates num g) (Machine.cursor num g) (length xs))))
       score tot,
     Machine.mkRng num (Machine.deviates num g)
       (Machine.cursor num g + 2 * length xs)).
Proof.
  revert tot g. induction xs as [|x xs IH]; intros tot g.
  - simpl. unfold Machine.ret. rewrite Nat.add_0_r. destruct g; reflexivity.
  - cbn [Machine.for_each]. unfold Machine.bind at 1.
    rewrite machine_trial_run, IH.
    cbn [length Machine.draws Machine.deviates Machine.cursor filter].
    replace (S (S (Machine.cursor num g)) + 2 * length xs)%nat
      with (Machine.cursor num g + 2 * S (length xs))%nat by lia.
    destruct (Machine.is_hit num ltb integrand _); [|reflexivity].
    cbn [length]. unfold Machine.accumulate. rewrite Nat.iter_succ_r. reflexivity.
Qed.

(** A whole call. *)
Lemma machine_MCHist_run (n_hist : Z) (a b fmax : num) (g : Machine.rng num) :
  Machine.MCHist num zero add sub mul ltb integrand n_hist a b fmax g =
  Returned
    (Machine.accumulate num add
       (Machine.hits num zero add sub mul ltb integrand n_hist a b fmax g)
       (mul (sub b a) fmax) zero,
     Machine.mkRng num (Machine.deviates num g)
       (Machine.cursor num g + 2 * trials n_hist)).
Proof.
  unfold Machine.MCHist, Machine.hits, Machine.run_draws, trials.
  apply machine_for_each_run.
Qed.

Lemma machine_hits_le_trials (n_hist : Z) (a b fmax : num) (g : Machine.rng num) :
  (Machine.hits num zero add sub mul ltb integrand n_hist a b fmax g
   <= trials n_hist)%nat.
Proof.
  unfold Machine.hits, Machine.run_draws.
  etransitivity; [apply filter_length_le|].
  rewrite machine_draws_length. reflexivity.
Qed.

End MachineFacts.

(** The exact estimator is the estimator over the arithmetic of the
    rationals. *)
Lemma exact_draws_are_machine_draws a b fmax (u : stream) c k :
  Machine.draws Q 0 Qplus Qminus Qmult a b fmax u c k = draws a b fmax u c k.
Proof.
  revert c. induction k as [|k IH]; intros c; simpl; [|rewrite IH]; reflexivity.
Qed.

Lemma exact_tally_is_accumulate integrand score (ds : list (Q * Q)) (tot : Q) :
  tally integrand score tot ds =
  Machine.accumulate Q Qplus
    (length (filter (Machine.is_hit Q Qlt_bool integrand) ds)) score tot.
Proof.
  unfold tally, Machine.accumulate. revert tot.
  induction ds as [|p ds IH]; intros tot; [reflexivity|].
  cbn [filter fold_left].
  change (Machine.is_hit Q Qlt_bool integrand p) with (is_hit integrand p).
  destruct (is_hit integrand p); [|apply IH].
  cbn [length]. rewrite Nat.iter_succ_r. apply IH.
Qed.

Lemma exact_MCHist_is_machine_MCHist integrand n a b fmax (u : stream) (c : nat) :
  exists v c',
    MCHist integrand n a b fmax (mkRng u c) = Returned (v, mkRng u c') /\
    Machine.MCHist Q 0 Qplus Qminus Qmult Qlt_bool integrand n a b fmax
      (Machine.mkRng Q u c) = Returned (v, Machine.mkRng Q u c').
Proof.
  exists (tally integrand ((b - a) * fmax) 0 (run_draws n a b fmax (mkRng u c))).
  exists (c + 2 * trials n)%nat. split; [apply MCHist_tally|].
  rewrite machine_MCHist_run. cbn [Machine.deviates Machine.cursor]. do 2 f_equal.
  rewrite exact_tally_is_accumulate.
  unfold Machine.hits, Machine.run_draws, run_draws.
  cbn [Machine.deviates Machine.cursor deviates cursor].
  rewrite exact_draws_are_machine_draws. reflexivity.
Qed.

(** ** What a call adds up *)

Lemma trials_max (n : Z) : Z.of_nat (trials n) = Z.max (n - 1) 0.
Proof. rewrite trials_eq. lia. Qed.

(** C9, as the code has it.  In whatever arithmetic the call computes, the
    value it returns is the score (b - a) * fmax added to zero k times, one
    addition after the other, for a natural number k of at most
    max(n_hist - 1, 0): the number of hits. *)
Theorem MCHist_value_is_score_accumulated
    (num : Type) (zero : num) (add sub mul : num -> num -> num)
    (ltb : num -> num -> bool) (integrand : num -> num)
    (n_hist : Z) (a b fmax : num) (g : Machine.rng num) :
  exists (k : nat) (g' : Machine.rng num),
    Machine.MCHist num zero add sub mul ltb integrand n_hist a b fmax g =
      Returned (Machine.accumulate num add k (mul (sub b a) fmax) zero, g') /\
    k = Machine.hits num zero add sub mul ltb integrand n_hist a b fmax g /\
    (Z.of_nat k <= Z.max (n_hist - 1) 0)%Z.
Proof.
  exists (Machine.hits num zero add sub mul ltb integrand n_hist a b fmax g).
  eexists. split; [apply machine_MCHist_run|]. split; [reflexivity|].
  rewrite <- trials_max. apply Nat2Z.inj_le, machine_hits_le_trials.
Qed.

(** C1, as the code has it.  In whatever arithmetic the cell computes, the
    published estimate is S / n, where S is the score (b - a) * fmax added
    to zero once per hit, one addition after the other, and [hits] counts
    the trials of the run whose drawn y was below f(x); for a sample count
    that converts to zero the division raises. *)
Theorem estimate_is_accumulated_score_over_count
    (num : Type) (zero : num) (add sub mul div : num -> num -> num)
    (ltb : num -> num -> bool) (is_zero : num -> bool) (of_Z : Z -> num)
    (integrand : num -> num) (n : Z) (a b fmax : num) (g : Machine.rng num) :
  Machine.estimate num zero add sub mul div ltb is_zero of_Z integrand n a b fmax g =
  Machine.py_div num div is_zero
    (Machine.accumulate num add
       (Machine.hits num zero add sub mul ltb integrand n a b fmax g)
       (mul (sub b a) fmax) zero)
    (of_Z n).
Proof.
  unfold Machine.estimate. rewrite machine_MCHist_run. reflexivity.
Qed.

(** ** The notebook's first call, shortened to eight histories *)

(** [MCHist(8, 0.0, 2.0, 54.6)] over deviates 0.5 for x and 0.0 for y: all
    seven trials draw (1.0, 0.0). *)
Lemma binary64_draws :
  Machine.run_draws float 0%float PrimFloat.add PrimFloat.sub PrimFloat.mul
    8 0%float 2%float 54.6%float Binary64.g_half_zero =
  repeat (1%float, 0%float) 7.
Proof. vm_compute. reflexivity. Qed.

(** They are all hits for an integrand that is positive at x = 1, as
    exp(x^2) is. *)
Lemma binary64_seven_hits (integrand : float -> float) :
  PrimFloat.ltb 0%float (integrand 1%float) = true ->
  Binary64.hits integrand 8 0%float 2%float 54.6%float Binary64.g_half_zero = 7%nat.
Proof.
  intros H. unfold Binary64.hits, Machine.hits. rewrite binary64_draws.
  cbn [repeat filter]. unfold Machine.is_hit. cbn [fst snd]. rewrite H.
  reflexivity.
Qed.

(** The call returns 764.4000000000001, Python's name for the binary64 that
    seven additions of 109.2 lead to. *)
Lemma binary64_seven_hits_total (integrand : float -> float) :
  PrimFloat.ltb 0%float (integrand 1%float) = true ->
  Binary64.MCHist integrand 8 0%float 2%float 54.6%float Binary64.g_half_zero =
  Returned (764.4000000000001%float,
            Machine.mkRng float (Machine.deviates float Binary64.g_half_zero) 14).
Proof.
  intros H. unfold Binary64.MCHist. rewrite machine_MCHist_run.
  fold (Binary64.hits integrand 8 0%float 2%float 54.6%float Binary64.g_half_zero).
  rewrite (binary64_seven_hits integrand H). vm_compute. reflexivity.
Qed.

Lemma binary64_seven_hits_estimate (integrand : float -> float) :
  PrimFloat.ltb 0%float (integrand 1%float) = true ->
  Binary64.estimate integrand 8 0%float 2%float 54.6%float Binary64.g_half_zero =
  Returned 95.55000000000001%float.
Proof.
  intros H. unfold Binary64.estimate, Machine.estimate.
  fold (Binary64.MCHist integrand 8 0%float 2%float 54.6%float Binary64.g_half_zero).
  rewrite (binary64_seven_hits_total integrand H). vm_compute. reflexivity.
Qed.

(** C1 as stated fails in binary64.  For every integrand that is positive at
    x = 1, [MCHist(8, 0.0, 2.0, 54.6)] over these deviates has seven hits and
    publishes 95.55000000000001, while (7 / 8) * (2.0 - 0.0) * 54.6 is
    95.55. *)
Lemma binary64_estimate_is_not_the_formula :
  ~ exists integrand : float -> float,
      PrimFloat.ltb 0%float (integrand 1%float) = true /\
      Binary64.estimate integrand 8 0%float 2%float 54.6%float Binary64.g_half_zero =
      Binary64.formula
        (Binary64.hits integrand 8 0%float 2%float 54.6%float Binary64.g_half_zero)
        8 0%float 2%float 54.6%float.
Proof.
  intros (integrand & H & E).
  rewrite (binary64_seven_hits_estimate integrand H) in E.
  rewrite (binary64_seven_hits integrand H) in E.
  apply (f_equal (fun r => match r with
                           | Returned z => PrimFloat.eqb z 95.55%float
                           | Raised _ => false
                           end)) in E.
  vm_compute in E. discriminate E.
Qed.

(** C9 as stated fails twice.  For a sample count of zero the call returns
    0, but no k satisfies 0 <= k <= -1, and 0 is above
    (0 - 1) * (b - a) * fmax.  And in binary64, for every integrand that is
    positive at x = 1, [MCHist(8, 0.0, 2.0, 54.6)] over deviates that make
    all seven trials hit returns 764.4000000000001, which is k * 2.0 * 54.6
    for no k up to 7 and is above 7 * 2.0 * 54.6. *)
Lemma MCHist_value_outside_stated_range :
  (exists (v : Q) (g' : rng),
     MCHist (fun x => x) 0 0 1 1 g0 = Returned (v, g') /\
     (~ exists k : Z, (0 <= k <= 0 - 1)%Z /\ v == inject_Z k * (1 - 0) * 1) /\
     ~ v <= inject_Z (0 - 1) * (1 - 0) * 1) /\
  ~ exists integrand : float -> float,
      PrimFloat.ltb 0%float (integrand 1%float) = true /\
      exists v g',
        Binary64.MCHist integrand 8 0%float 2%float 54.6%float Binary64.g_half_zero =
          Returned (v, g') /\
        ((exists k, (k <= 7)%nat /\ v = Binary64.multiple k 0%float 2%float 54.6%float) \/
         PrimFloat.leb v (Binary64.multiple 7 0%float 2%float 54.6%float) = true).
Proof.
  split.
  - exists 0, g0. split; [reflexivity|]. split.
    + intros (k & Hk & _). lia.
    + intros H. apply Qle_not_lt in H. apply H. reflexivity.
  - intros (integrand & H & v & g' & E & D).
    rewrite (binary64_seven_hits_total integrand H) in E.
    assert (Hv : v = 764.4000000000001%float).
    { apply (f_equal (fun r => match r with
                               | Returned (z, _) => z
                               | Raised _ => 0%float
                               end)) in E.
      symmetry. exact E. }
    subst v. clear E.
    destruct D as [(k & Hk & Ek)|Hle].
    + assert (Hall : forallb
                (fun k => negb (PrimFloat.eqb
                                  (Binary64.multiple k 0%float 2%float 54.6%float)
                                  764.4000000000001%float))
                (seq 0 8) = true) by (vm_compute; reflexivity).
      rewrite forallb_forall in Hall.
      specialize (Hall k ltac:(apply in_seq; lia)).
      rewrite <- Ek in Hall. vm_compute in Hall. discriminate Hall.
    + vm_compute in Hle. discriminate Hle.
Qed.
